(** * The OMI transaction family handler (sawtooth_omi/handler.py)

    A shallow embedding of the handler: address derivation, record
    decoding, the authorization check, the two domain validators and the
    commit, followed by the properties of the transition [apply]. *)

From Stdlib Require Import ZArith Ascii String List Lia.
From stdpp Require Import gmap strings.
From Ceres Require Import Ceres.
Import ListNotations.
Local Open Scope string_scope.

(** ** hashlib.sha512

    [hashlib.sha512(b).hexdigest()] over a byte string.  Words are 64-bit
    integers kept in [Z], every addition reduced modulo [2^64]. *)

Module SHA512.
Local Open Scope Z_scope.

Definition mask64 : Z := 0xffffffffffffffff.
Definition add64 (x y : Z) : Z := Z.land (x + y) mask64.
Definition rotr (n x : Z) : Z :=
Z.lor (Z.shiftr x n) (Z.land (Z.shiftl x (64 - n)) mask64).
Definition shr (n x : Z) : Z := Z.shiftr x n.

Definition Ch (x y z : Z) : Z :=
Z.lxor (Z.land x y) (Z.land (Z.lxor x mask64) z).
Definition Maj (x y z : Z) : Z :=
Z.lxor (Z.lxor (Z.land x y) (Z.land x z)) (Z.land y z).
Definition Sigma0 (x : Z) : Z := Z.lxor (Z.lxor (rotr 28 x) (rotr 34 x)) (rotr 39 x).
Definition Sigma1 (x : Z) : Z := Z.lxor (Z.lxor (rotr 14 x) (rotr 18 x)) (rotr 41 x).
Definition sigma0 (x : Z) : Z := Z.lxor (Z.lxor (rotr 1 x) (rotr 8 x)) (shr 7 x).
Definition sigma1 (x : Z) : Z := Z.lxor (Z.lxor (rotr 19 x) (rotr 61 x)) (shr 6 x).

(** The eighty round constants. *)
Definition K : list Z :=
[
  0x428a2f98d728ae22; 0x7137449123ef65cd; 0xb5c0fbcfec4d3b2f; 0xe9b5dba58189dbbc;
  0x3956c25bf348b538; 0x59f111f1b605d019; 0x923f82a4af194f9b; 0xab1c5ed5da6d8118;
  0xd807aa98a3030242; 0x12835b0145706fbe; 0x243185be4ee4b28c; 0x550c7dc3d5ffb4e2;
  0x72be5d74f27b896f; 0x80deb1fe3b1696b1; 0x9bdc06a725c71235; 0xc19bf174cf692694;
  0xe49b69c19ef14ad2; 0xefbe4786384f25e3; 0xfc19dc68b8cd5b5; 0x240ca1cc77ac9c65;
  0x2de92c6f592b0275; 0x4a7484aa6ea6e483; 0x5cb0a9dcbd41fbd4; 0x76f988da831153b5;
  0x983e5152ee66dfab; 0xa831c66d2db43210; 0xb00327c898fb213f; 0xbf597fc7beef0ee4;
  0xc6e00bf33da88fc2; 0xd5a79147930aa725; 0x6ca6351e003826f; 0x142929670a0e6e70;
  0x27b70a8546d22ffc; 0x2e1b21385c26c926; 0x4d2c6dfc5ac42aed; 0x53380d139d95b3df;
  0x650a73548baf63de; 0x766a0abb3c77b2a8; 0x81c2c92e47edaee6; 0x92722c851482353b;
  0xa2bfe8a14cf10364; 0xa81a664bbc423001; 0xc24b8b70d0f89791; 0xc76c51a30654be30;
  0xd192e819d6ef5218; 0xd69906245565a910; 0xf40e35855771202a; 0x106aa07032bbd1b8;
  0x19a4c116b8d2d0c8; 0x1e376c085141ab53; 0x2748774cdf8eeb99; 0x34b0bcb5e19b48a8;
  0x391c0cb3c5c95a63; 0x4ed8aa4ae3418acb; 0x5b9cca4f7763e373; 0x682e6ff3d6b2b8a3;
  0x748f82ee5defb2fc; 0x78a5636f43172f60; 0x84c87814a1f0ab72; 0x8cc702081a6439ec;
  0x90befffa23631e28; 0xa4506cebde82bde9; 0xbef9a3f7b2c67915; 0xc67178f2e372532b;
  0xca273eceea26619c; 0xd186b8c721c0c207; 0xeada7dd6cde0eb1e; 0xf57d4f7fee6ed178;
  0x6f067aa72176fba; 0xa637dc5a2c898a6; 0x113f9804bef90dae; 0x1b710b35131c471b;
  0x28db77f523047d84; 0x32caab7b40c72493; 0x3c9ebe0a15c9bebc; 0x431d67c49c100d4c;
  0x4cc5d4becb3e42b6; 0x597f299cfc657e2a; 0x5fcb6fab3ad6faec; 0x6c44198c4a475817
].

(** The chaining value: eight 64-bit words. *)
Record hstate : Type := HState {
ha : Z; hb : Z; hc : Z; hd : Z; he : Z; hf : Z; hg : Z; hh : Z
}.

Definition H0 : hstate :=
HState 0x6a09e667f3bcc908 0xbb67ae8584caa73b
       0x3c6ef372fe94f82b 0xa54ff53a5f1d36f1
       0x510e527fade682d1 0x9b05688c2b3e6c1f
       0x1f83d9abfb41bd6b 0x5be0cd19137e2179.

(** Padding: a one bit, zeros up to 112 modulo 128, then the bit length
  as a 128-bit big-endian integer. *)
Definition be_bytes (width : nat) (v : Z) : list Z :=
map (fun i => Z.land (Z.shiftr v (8 * Z.of_nat (width - 1 - i))) 0xff)
    (seq 0 width).

Definition pad (msg : list Z) : list Z :=
let len := Z.of_nat (List.length msg) in
let zeros := Z.to_nat ((111 - len) mod 128) in
msg ++ [0x80] ++ repeat 0 zeros ++ be_bytes 16 (8 * len).

Definition be_word (bs : list Z) : Z :=
fold_left (fun acc b => Z.lor (Z.shiftl acc 8) b) bs 0.

(** Cut a list into consecutive chunks of [n] elements; [fuel] bounds
  the number of chunks. *)
Fixpoint chunks {A : Type} (fuel n : nat) (l : list A) : list (list A) :=
match fuel with
| O => []
| S fuel' =>
    match l with
    | [] => []
    | _ => firstn n l :: chunks fuel' n (skipn n l)
    end
end.

Definition block_words (block : list Z) : list Z :=
map be_word (chunks 16 8 block).

(** The message schedule, built newest word first: [rev_w] holds
  W[t-1], W[t-2], ... *)
Fixpoint extend (n : nat) (rev_w : list Z) : list Z :=
match n with
| O => rev_w
| S n' =>
    let w2 := nth 1 rev_w 0 in
    let w7 := nth 6 rev_w 0 in
    let w15 := nth 14 rev_w 0 in
    let w16 := nth 15 rev_w 0 in
    extend n' (add64 (add64 (add64 (sigma1 w2) w7) (sigma0 w15)) w16 :: rev_w)
end.

Definition schedule (block : list Z) : list Z :=
rev (extend 64 (rev (block_words block))).

Definition round (s : hstate) (kw : Z * Z) : hstate :=
let '(k, w) := kw in
let t1 := add64 (add64 (add64 (add64 (hh s) (Sigma1 (he s))) (Ch (he s) (hf s) (hg s))) k) w in
let t2 := add64 (Sigma0 (ha s)) (Maj (ha s) (hb s) (hc s)) in
HState (add64 t1 t2) (ha s) (hb s) (hc s) (add64 (hd s) t1) (he s) (hf s) (hg s).

Definition compress (s : hstate) (block : list Z) : hstate :=
let r := fold_left round (combine K (schedule block)) s in
HState (add64 (ha s) (ha r)) (add64 (hb s) (hb r)) (add64 (hc s) (hc r))
       (add64 (hd s) (hd r)) (add64 (he s) (he r)) (add64 (hf s) (hf r))
       (add64 (hg s) (hg r)) (add64 (hh s) (hh r)).

Definition digest_words (msg : list Z) : hstate :=
let p := pad msg in
fold_left compress (chunks (List.length p) 128 p) H0.

(** Lower-case hexadecimal rendering, sixteen digits per word. *)
Definition hexdigit (d : Z) : ascii :=
if d <? 10 then ascii_of_N (Z.to_N (48 + d)) else ascii_of_N (Z.to_N (87 + d)).

Definition hex64 (w : Z) : list ascii :=
map (fun i => hexdigit (Z.land (Z.shiftr w (4 * Z.of_nat (15 - i))) 0xf))
    (seq 0 16).

Definition hexdigest_chars (s : hstate) : list ascii :=
hex64 (ha s) ++ hex64 (hb s) ++ hex64 (hc s) ++ hex64 (hd s) ++
hex64 (he s) ++ hex64 (hf s) ++ hex64 (hg s) ++ hex64 (hh s).

Definition bytes_of_string (s : string) : list Z :=
map (fun c => Z.of_N (N_of_ascii c)) (list_ascii_of_string s).

Definition hexdigest (s : string) : string :=
string_of_list_ascii (hexdigest_chars (digest_words (bytes_of_string s))).

End SHA512.


(** ** Python values

    Text and byte strings are both kept as [string], a Python [str]
    being represented by its UTF-8 encoding, so that
    [name.encode('utf-8')] leaves the representation unchanged. *)

Definition slice_to (n : nat) (s : string) : string := substring 0 n s.

Definition slice_last (n : nat) (s : string) : string :=
  substring (String.length s - n) n s.

Definition py_in (x : string) (xs : list string) : bool :=
  existsb (String.eqb x) xs.

(** The exceptions that can leave the handler. *)
Inductive exn : Type :=
| InvalidTransaction (msg : string)
| InternalError (msg : string)
| DecodeError
| IndexError
| KeyError (key : string)
| AttributeError (attr : string)
| UnboundLocalError (var : string).

Inductive result (A : Type) : Type :=
| Ok (a : A)
| Raise (e : exn).
Arguments Ok {A} a.
Arguments Raise {A} e.

Definition rbind {A B : Type} (r : result A) (k : A -> result B) : result B :=
  match r with
  | Ok a => k a
  | Raise e => Raise e
  end.

Definition try_except {A : Type} (r : result A) (handler : exn -> result A) : result A :=
  match r with
  | Ok a => Ok a
  | Raise e => handler e
  end.

Definition dict_get {V : Type} (d : gmap string V) (k : string) : result V :=
  match d !! k with
  | Some v => Ok v
  | None => Raise (KeyError k)
  end.

Definition index0 {A : Type} (l : list A) : result A :=
  match l with
  | x :: _ => Ok x
  | [] => Raise IndexError
  end.

#[global] Instance result_ret : MRet result := @Ok.
#[global] Instance result_bind : MBind result := fun A B k r => rbind r k.

(** ** Messages

    Modelled from the spec: the protocol-buffer declarations
    (work_pb2, recording_pb2, identity_pb2, txn_payload_pb2) are not part
    of the handler's file.  The fields are those of the data model: a
    Work and a Recording are keyed by [title], carry a [pubkey], references
    to songwriter and publisher identities and split percentages; an
    identity is keyed by [name] and carries a [registering_pubkey]. *)

Module Work.
Record t : Type := Build {
  title : string;
  pubkey : string;
  songwriters : list string;
  publishers : list string;
  splits : list Z
}.
End Work.

Module Recording.
Record t : Type := Build {
  title : string;
  pubkey : string;
  songwriters : list string;
  publishers : list string;
  splits : list Z
}.
End Recording.

Module IndividualIdentity.
Record t : Type := Build {
  name : string;
  registering_pubkey : string
}.
End IndividualIdentity.

Module OrganizationalIdentity.
Record t : Type := Build {
  name : string;
  registering_pubkey : string
}.
End OrganizationalIdentity.

Module TransactionHeader.
Record t : Type := Build { signer_pubkey : string }.
End TransactionHeader.

Module OMITransactionPayload.
Record t : Type := Build { action : string }.
End OMITransactionPayload.

(** A parsed object of one of the four message classes. *)
Inductive pyobj : Type :=
| OWork (w : Work.t)
| ORecording (r : Recording.t)
| OIndividual (i : IndividualIdentity.t)
| OOrganization (o : OrganizationalIdentity.t).

(** Attribute access on a parsed object. *)
Definition get_title (obj : pyobj) : result string :=
  match obj with
  | OWork w => Ok (Work.title w)
  | ORecording r => Ok (Recording.title r)
  | _ => Raise (AttributeError "title")
  end.

Definition get_name (obj : pyobj) : result string :=
  match obj with
  | OIndividual i => Ok (IndividualIdentity.name i)
  | OOrganization o => Ok (OrganizationalIdentity.name o)
  | _ => Raise (AttributeError "name")
  end.

Definition get_pubkey (obj : pyobj) : result string :=
  match obj with
  | OWork w => Ok (Work.pubkey w)
  | ORecording r => Ok (Recording.pubkey r)
  | _ => Raise (AttributeError "pubkey")
  end.

Definition get_registering_pubkey (obj : pyobj) : result string :=
  match obj with
  | OIndividual i => Ok (IndividualIdentity.registering_pubkey i)
  | OOrganization o => Ok (OrganizationalIdentity.registering_pubkey o)
  | _ => Raise (AttributeError "registering_pubkey")
  end.

(** The wire codec of a message class: [ParseFromString] answers [None]
    where the library raises [DecodeError]. *)
Class Message (A : Type) : Type := {
  ParseFromString : string -> option A;
  SerializeToString : A -> string
}.

(** The four message classes as values, as the handler keeps them in a
    dictionary. *)
Inductive msg_class : Type := WorkC | RecordingC | IndividualIdentityC | OrganizationalIdentityC.

(** ** The transaction and the state store

    Modelled from the spec: the host runtime's transaction envelope and
    state access capability (sawtooth_sdk).  [get] returns one entry per
    requested address that holds a value; [set] returns the addresses
    actually written, which are those the store accepts. *)

Record Transaction : Type := {
  header : string;
  payload : string;
  data : string
}.

Record StateEntry : Type := {
  se_address : string;
  se_data : string
}.

Record State : Type := {
  entries : gmap string string;
  accepts : string -> bool
}.

Definition state_get (st : State) (addresses : list string) : list StateEntry :=
  omap (fun a => Build_StateEntry a <$> entries st !! a) addresses.

Definition state_set (st : State) (es : list StateEntry) : list string * State :=
  let written := filter (fun e => accepts st (se_address e) = true) es in
  (se_address <$> written,
   {| entries := foldl (fun m e => <[se_address e := se_data e]> m) (entries st) written;
      accepts := accepts st |}).

(** Computations of the handler that use the store. *)
Definition M (A : Type) : Type := State -> result A * State.

Definition lift {A : Type} (r : result A) : M A := fun st => (r, st).
Definition hbind {A B : Type} (m : M A) (k : A -> M B) : M B :=
  fun st =>
    match m st with
    | (Ok a, st') => k a st'
    | (Raise e, st') => (Raise e, st')
    end.

#[global] Instance M_ret : MRet M := fun A a st => (Ok a, st).
#[global] Instance M_bind : MBind M := fun A B k m => hbind m k.

(** ** handler.py *)

Definition WORK : string := "SetWork".
Definition RECORDING : string := "SetRecording".
Definition INDIVIDUAL : string := "SetIndividualIdentity".
Definition ORGANIZATION : string := "SetOrganizationalIdentity".

Definition _hash_name (name : string) : string := SHA512.hexdigest name.

Definition FAMILY_NAME : string := "OMI".
Definition OMI_ADDRESS_PREFIX : string := slice_to 6 (_hash_name FAMILY_NAME).

Definition _get_address_infix (action : string) : result string :=
  let infixes : gmap string string :=
    {[ WORK := "a0"; RECORDING := "a1"; INDIVIDUAL := "00"; ORGANIZATION := "01" ]} in
  dict_get infixes action.

Definition _get_unique_key (obj : pyobj) (action : string) : result string :=
  if py_in action [WORK; RECORDING] then get_title obj
  else if py_in action [INDIVIDUAL; ORGANIZATION] then get_name obj
  else Raise (UnboundLocalError "key").

Definition make_omi_address (obj : pyobj) (action : string) : result string :=
  infix ← _get_address_infix action;
  key ← _get_unique_key obj action;
  Ok (OMI_ADDRESS_PREFIX ++ infix ++ slice_last 62 (_hash_name key)).




Definition family_name : string := FAMILY_NAME.
Definition family_versions : list string := ["1.0"].
Definition encodings : list string := ["application/protobuf"].
Definition namespaces : list string := [OMI_ADDRESS_PREFIX].

Definition _check_authorization (state_obj : option pyobj) (action signer : string)
  : result unit :=
  match state_obj with
  | None => Ok tt
  | Some state_obj =>
      pubkey ←
        (if py_in action [WORK; RECORDING] then get_pubkey state_obj
         else if py_in action [INDIVIDUAL; ORGANIZATION] then get_registering_pubkey state_obj
         else Raise (UnboundLocalError "pubkey"));
      if negb (String.eqb pubkey signer)
      then Raise (InvalidTransaction "Signing key mismatch")
      else Ok tt
  end.

(** The two validators have a docstring and no body. *)
Definition _check_split_sums (obj : pyobj) (action : string) : result unit := Ok tt.

Definition _check_references (obj : pyobj) (action : string) : result unit := Ok tt.

Section Handler.
Context `{MW : Message Work.t} `{MR : Message Recording.t}
        `{MI : Message IndividualIdentity.t}
        `{MO : Message OrganizationalIdentity.t}
        `{MH : Message TransactionHeader.t}
        `{MP : Message OMITransactionPayload.t}.

Definition parse_class (c : msg_class) (s : string) : option pyobj :=
  match c with
  | WorkC => OWork <$> ParseFromString s
  | RecordingC => ORecording <$> ParseFromString s
  | IndividualIdentityC => OIndividual <$> ParseFromString s
  | OrganizationalIdentityC => OOrganization <$> ParseFromString s
  end.

Definition serialize (obj : pyobj) : string :=
  match obj with
  | OWork w => SerializeToString w
  | ORecording r => SerializeToString r
  | OIndividual i => SerializeToString i
  | OOrganization o => SerializeToString o
  end.

Definition _parse_object (obj_string action : string) : result pyobj :=
  let obj_types : gmap string msg_class :=
    {[ WORK := WorkC; RECORDING := RecordingC;
       INDIVIDUAL := IndividualIdentityC; ORGANIZATION := OrganizationalIdentityC ]} in
  obj_type ← dict_get obj_types action;
  match parse_class obj_type obj_string with
  | Some parsed_obj => Ok parsed_obj
  | None => Raise (InvalidTransaction "Invalid action")
  end.

(** What decoding [d] into the class injected by [inj] gives. *)
Definition decoded {A : Type} `{Message A} (inj : A -> pyobj) (d : string) : result pyobj :=
  match ParseFromString d with
  | Some m => Ok (inj m)
  | None => Raise (InvalidTransaction "Invalid action")
  end.

(** The four ways an object is decoded, or none for an unknown action. *)
Inductive parse_case (d action : string) : result pyobj -> Prop :=
| parse_work : action = WORK -> parse_case d action (decoded OWork d)
| parse_recording : action = RECORDING -> parse_case d action (decoded ORecording d)
| parse_individual : action = INDIVIDUAL -> parse_case d action (decoded OIndividual d)
| parse_organization :
    action = ORGANIZATION -> parse_case d action (decoded OOrganization d)
| parse_unknown :
    action <> WORK -> action <> RECORDING ->
    action <> INDIVIDUAL -> action <> ORGANIZATION ->
    parse_case d action (Raise (KeyError action)).

Definition _unpack_transaction (transaction : Transaction)
  : result (string * pyobj * string) :=
  match ParseFromString (header transaction) with
  | None => Raise DecodeError
  | Some hdr =>
      let signer := TransactionHeader.signer_pubkey hdr in
      match ParseFromString (payload transaction) with
      | None => Raise DecodeError
      | Some pl =>
          let action := OMITransactionPayload.action pl in
          let txn_obj := data transaction in
          obj ← _parse_object txn_obj action;
          Ok (action, obj, signer)
      end
  end.

Definition _get_state_object (address action : string) : M (option pyobj) :=
  fun state =>
    (try_except
       (let state_entries := state_get state [address] in
        e ← index0 state_entries;
        obj ← _parse_object (se_data e) action;
        Ok (Some obj))
       (fun e => match e with IndexError => Ok None | _ => Raise e end),
     state).

Definition _set_state_object (address : string) (obj : pyobj) : M unit :=
  fun state =>
    let obj_string := serialize obj in
    let '(addresses, state') :=
      state_set state [ {| se_address := address; se_data := obj_string |} ] in
    match addresses with
    | [] => (Raise (InternalError "State error"), state')
    | _ => (Ok tt, state')
    end.

Definition apply (transaction : Transaction) : M unit :=
  '(action, txn_obj, signer) ← lift (_unpack_transaction transaction);
  address ← lift (make_omi_address txn_obj action);
  state_obj ← _get_state_object address action;
  _ ← lift (_check_authorization state_obj action signer);
  _ ← lift (_check_split_sums txn_obj action);
  _ ← lift (_check_references txn_obj action);
  _set_state_object address txn_obj.

(** The envelope a client builds for [obj], signed by [signer]. *)
Definition make_transaction (signer action : string) (obj : pyobj) : Transaction :=
  {| header := SerializeToString (TransactionHeader.Build signer);
     payload := SerializeToString (OMITransactionPayload.Build action);
     data := serialize obj |}.

End Handler.

(** ** A wire codec to run the handler on concrete transactions

    The handler is generic in the codec of the message classes.  Here
    every message is given an S-expression wire form, the tuple of its
    fields. *)

Module SexpWire.

Definition via {A T : Type} `{Serialize T} `{Deserialize T}
    (to : A -> T) (from : T -> A) : Message A :=
  {| ParseFromString s :=
       match from_string s with
       | inr t => Some (from t)
       | inl _ => None
       end;
     SerializeToString a := to_string (to a) |}.

#[export] Instance Message_Work : Message Work.t :=
  via (fun w => (Work.title w, Work.pubkey w, Work.songwriters w,
                 Work.publishers w, Work.splits w))
      (fun '(t, k, sw, pb, sp) => Work.Build t k sw pb sp).

#[export] Instance Message_Recording : Message Recording.t :=
  via (fun r => (Recording.title r, Recording.pubkey r, Recording.songwriters r,
                 Recording.publishers r, Recording.splits r))
      (fun '(t, k, sw, pb, sp) => Recording.Build t k sw pb sp).

#[export] Instance Message_IndividualIdentity : Message IndividualIdentity.t :=
  via (fun i => (IndividualIdentity.name i, IndividualIdentity.registering_pubkey i))
      (fun '(n, k) => IndividualIdentity.Build n k).

#[export] Instance Message_OrganizationalIdentity : Message OrganizationalIdentity.t :=
  via (fun o => (OrganizationalIdentity.name o, OrganizationalIdentity.registering_pubkey o))
      (fun '(n, k) => OrganizationalIdentity.Build n k).

#[export] Instance Message_TransactionHeader : Message TransactionHeader.t :=
  via TransactionHeader.signer_pubkey TransactionHeader.Build.

#[export] Instance Message_OMITransactionPayload : Message OMITransactionPayload.t :=
  via OMITransactionPayload.action OMITransactionPayload.Build.

End SexpWire.

(** Concrete records, transactions and stores. *)

Module Fixtures.
Import SexpWire.

Definition empty_state : State := {| entries := ∅; accepts := fun _ => true |}.

Definition rejecting_state : State := {| entries := ∅; accepts := fun _ => false |}.

Definition alice : pyobj := OIndividual (IndividualIdentity.Build "alice" "K1").

Definition alice_address : string :=
  "38aa500072c90c8d3385d47ede5420a7a9623aad817d9f8a70bd100a0acea7400daa59".

Definition song (pubkey : string) (songwriters : list string) (splits : list Z) : pyobj :=
  OWork (Work.Build "Song" pubkey songwriters [] splits).

Definition song_address : string :=
  "38aa50a0737ae4da6d46093b4c5062ed9b44ec47b34b02eccf87ade6d2e2bfd3443b30".

Definition bob_address : string :=
  "38aa50001f0b436636667b27b363011543971f1c81c3151d5ef72733501c1ff33c34af".

(** The store after K1 has registered the work. *)
Definition song_state : State :=
  snd (apply (make_transaction "K1" WORK (song "K1" [] [])) empty_state).

(** A store whose entry at alice's address is not a record. *)
Definition garbled_state : State :=
  {| entries := {[ alice_address := "((" ]}; accepts := fun _ => true |}.

End Fixtures.

(** * Properties *)

Ltac run_result := unfold mbind, result_bind, rbind; simpl.

(** ** Strings and slices *)

Lemma length_string_of_list_ascii (l : list ascii) :
  String.length (string_of_list_ascii l) = List.length l.
Proof. induction l as [|c l IH]; simpl; [reflexivity | now rewrite IH]. Qed.

Lemma append_empty (s : string) : "" ++ s = s.
Proof. reflexivity. Qed.

Lemma append_String (c : ascii) (s1 s2 : string) :
  String c s1 ++ s2 = String c (s1 ++ s2).
Proof. reflexivity. Qed.

Lemma string_length_app (s1 s2 : string) :
  String.length (s1 ++ s2) = String.length s1 + String.length s2.
Proof.
  induction s1 as [|c s1 IH].
  - now rewrite append_empty.
  - rewrite append_String. simpl. now rewrite IH.
Qed.

Lemma substring_all (s : string) : substring 0 (String.length s) s = s.
Proof. induction s as [|c s IH]; simpl; [reflexivity | now rewrite IH]. Qed.

Lemma substring_drop (s1 s2 : string) :
  substring (String.length s1) (String.length s2) (s1 ++ s2) = s2.
Proof.
  induction s1 as [|c s1 IH].
  - rewrite append_empty. apply substring_all.
  - rewrite append_String. simpl. exact IH.
Qed.

Lemma length_substring (n m : nat) (s : string) :
  n + m <= String.length s -> String.length (substring n m s) = m.
Proof.
  revert n m; induction s as [|c s IH]; intros n m Hle; simpl in Hle.
  - assert (n = 0) by lia; assert (m = 0) by lia; subst; reflexivity.
  - destruct n as [|n]; simpl.
    + destruct m as [|m]; simpl; [reflexivity|].
      f_equal. apply (IH 0 m). lia.
    + apply IH. lia.
Qed.


Lemma slice_last_app (n : nat) (s1 s2 : string) :
  String.length s2 = n -> slice_last n (s1 ++ s2) = s2.
Proof.
  intros <-. unfold slice_last. rewrite string_length_app.
  replace (String.length s1 + String.length s2 - String.length s2)
    with (String.length s1) by lia.
  apply substring_drop.
Qed.

Lemma length_slice_last (n : nat) (s : string) :
  n <= String.length s -> String.length (slice_last n s) = n.
Proof. intros H. unfold slice_last. apply length_substring. lia. Qed.


(** ** The digest *)

Lemma length_hex64 (w : Z) : List.length (SHA512.hex64 w) = 16.
Proof. reflexivity. Qed.

Lemma length_hexdigest (s : string) : String.length (SHA512.hexdigest s) = 128.
Proof.
  unfold SHA512.hexdigest, SHA512.hexdigest_chars.
  rewrite length_string_of_list_ascii.
  rewrite !length_app, !length_hex64. reflexivity.
Qed.

Lemma hexdigest_empty :
  SHA512.hexdigest "" =
  "cf83e1357eefb8bdf1542850d66d8007d620e4050b5715dc83f4a921d36ce9ce47d0d13c5d85f2b0ff8318d2877eec2f63b931bd47417a81a538327af927da3e".
Proof. vm_compute. reflexivity. Qed.

Lemma hexdigest_abc :
  SHA512.hexdigest "abc" =
  "ddaf35a193617abacc417349ae20413112e6fa4e89a97ea20a9eeee64b55d39a2192992a274fc1a836ba3c23a3feebbd454d4423643ce80e2a9ac94fa54ca49f".
Proof. vm_compute. reflexivity. Qed.

Lemma length_hash_name (name : string) : String.length (_hash_name name) = 128.
Proof. apply length_hexdigest. Qed.







Lemma OMI_ADDRESS_PREFIX_value : OMI_ADDRESS_PREFIX = "38aa50".
Proof. vm_compute. reflexivity. Qed.

(** ** Address derivation *)

Lemma infix_WORK : _get_address_infix WORK = Ok "a0".
Proof. vm_compute. reflexivity. Qed.

Lemma infix_RECORDING : _get_address_infix RECORDING = Ok "a1".
Proof. vm_compute. reflexivity. Qed.

Lemma infix_INDIVIDUAL : _get_address_infix INDIVIDUAL = Ok "00".
Proof. vm_compute. reflexivity. Qed.

Lemma infix_ORGANIZATION : _get_address_infix ORGANIZATION = Ok "01".
Proof. vm_compute. reflexivity. Qed.


Lemma make_omi_address_known (obj : pyobj) (action infix key : string) :
  _get_address_infix action = Ok infix ->
  _get_unique_key obj action = Ok key ->
  make_omi_address obj action
  = Ok (OMI_ADDRESS_PREFIX ++ infix ++ slice_last 62 (_hash_name key)).
Proof. intros Hi Hk. unfold make_omi_address. rewrite Hi, Hk. reflexivity. Qed.

Lemma make_omi_address_WORK (w : Work.t) :
  make_omi_address (OWork w) WORK
  = Ok (OMI_ADDRESS_PREFIX ++ "a0" ++ slice_last 62 (_hash_name (Work.title w))).
Proof. apply make_omi_address_known; [apply infix_WORK | reflexivity]. Qed.

Lemma make_omi_address_RECORDING (r : Recording.t) :
  make_omi_address (ORecording r) RECORDING
  = Ok (OMI_ADDRESS_PREFIX ++ "a1" ++ slice_last 62 (_hash_name (Recording.title r))).
Proof. apply make_omi_address_known; [apply infix_RECORDING | reflexivity]. Qed.

Lemma make_omi_address_INDIVIDUAL (i : IndividualIdentity.t) :
  make_omi_address (OIndividual i) INDIVIDUAL
  = Ok (OMI_ADDRESS_PREFIX ++ "00" ++ slice_last 62 (_hash_name (IndividualIdentity.name i))).
Proof. apply make_omi_address_known; [apply infix_INDIVIDUAL | reflexivity]. Qed.

Lemma make_omi_address_ORGANIZATION (o : OrganizationalIdentity.t) :
  make_omi_address (OOrganization o) ORGANIZATION
  = Ok (OMI_ADDRESS_PREFIX ++ "01"
        ++ slice_last 62 (_hash_name (OrganizationalIdentity.name o))).
Proof. apply make_omi_address_known; [apply infix_ORGANIZATION | reflexivity]. Qed.


Lemma string_app_assoc (s1 s2 s3 : string) : s1 ++ (s2 ++ s3) = (s1 ++ s2) ++ s3.
Proof.
  induction s1 as [|c s1 IH].
  - now rewrite !append_empty.
  - rewrite !append_String. now rewrite IH.
Qed.

Lemma slice_last_address (infix key : string) :
  slice_last 62 (OMI_ADDRESS_PREFIX ++ infix ++ slice_last 62 (_hash_name key))
  = slice_last 62 (_hash_name key).
Proof.
  rewrite string_app_assoc. apply slice_last_app.
  apply length_slice_last. rewrite length_hash_name. lia.
Qed.

Lemma infix_of_address (c1 c2 : ascii) (suffix : string) :
  substring 6 2 (OMI_ADDRESS_PREFIX ++ String c1 (String c2 "") ++ suffix)
  = String c1 (String c2 "").
Proof.
  rewrite OMI_ADDRESS_PREFIX_value.
  rewrite !append_String, !append_empty. simpl.
  destruct suffix; reflexivity.
Qed.

(** C9: the addresses of a Work and of a Recording with the same title
    differ (infix a0 against a1) while their last 62 characters, the hash
    suffix of the title, are the same. *)
Theorem work_recording_namespace_isolation (w : Work.t) (r : Recording.t) :
  Work.title w = Recording.title r ->
  exists aw ar,
    make_omi_address (OWork w) WORK = Ok aw
    /\ make_omi_address (ORecording r) RECORDING = Ok ar
    /\ aw <> ar
    /\ substring 6 2 aw = "a0" /\ substring 6 2 ar = "a1"
    /\ slice_last 62 aw = slice_last 62 ar
    /\ slice_last 62 aw = slice_last 62 (_hash_name (Work.title w)).
Proof.
  intros Htitle.
  exists (OMI_ADDRESS_PREFIX ++ "a0" ++ slice_last 62 (_hash_name (Work.title w))).
  exists (OMI_ADDRESS_PREFIX ++ "a1" ++ slice_last 62 (_hash_name (Recording.title r))).
  assert (Hw : forall s, substring 6 2 (OMI_ADDRESS_PREFIX ++ "a0" ++ s) = "a0")
    by (intros s; apply infix_of_address).
  assert (Hr : forall s, substring 6 2 (OMI_ADDRESS_PREFIX ++ "a1" ++ s) = "a1")
    by (intros s; apply infix_of_address).
  split; [apply make_omi_address_WORK|].
  split; [apply make_omi_address_RECORDING|].
  split.
  - intros Heq. apply (f_equal (substring 6 2)) in Heq.
    rewrite Hw, Hr in Heq. discriminate Heq.
  - rewrite Hw, Hr, !slice_last_address, Htitle. repeat split; reflexivity.
Qed.

Lemma work_recording_namespace_isolation_witness :
  exists aw ar,
    make_omi_address (OWork (Work.Build "Song" "K1" [] [] [])) WORK = Ok aw
    /\ make_omi_address (ORecording (Recording.Build "Song" "K2" [] [] [])) RECORDING = Ok ar
    /\ aw <> ar
    /\ substring 6 2 aw = "a0" /\ substring 6 2 ar = "a1"
    /\ slice_last 62 aw = slice_last 62 ar
    /\ slice_last 62 aw = slice_last 62 (_hash_name "Song").
Proof.
  apply (work_recording_namespace_isolation
           (Work.Build "Song" "K1" [] [] []) (Recording.Build "Song" "K2" [] [] [])).
  reflexivity.
Defined.

(** ** The store *)

Lemma state_get_one (st : State) (address : string) :
  state_get st [address] =
  match entries st !! address with
  | Some d => [ {| se_address := address; se_data := d |} ]
  | None => []
  end.
Proof. unfold state_get. simpl. destruct (entries st !! address); reflexivity. Qed.

Lemma state_set_one (st : State) (address d : string) :
  state_set st [ {| se_address := address; se_data := d |} ] =
  if accepts st address
  then ([address], {| entries := <[address := d]> (entries st); accepts := accepts st |})
  else ([], st).
Proof.
  unfold state_set. rewrite filter_cons, filter_nil. simpl.
  destruct (accepts st address) eqn:Hacc; simpl.
  - reflexivity.
  - destruct st; reflexivity.
Qed.

(** ** The transition *)

Section HandlerProperties.
Context `{MW : Message Work.t} `{MR : Message Recording.t}
        `{MI : Message IndividualIdentity.t}
        `{MO : Message OrganizationalIdentity.t}
        `{MH : Message TransactionHeader.t}
        `{MP : Message OMITransactionPayload.t}.

Lemma apply_unfold (transaction : Transaction) (st : State) :
  apply transaction st =
  match _unpack_transaction transaction with
  | Raise e => (Raise e, st)
  | Ok (action, txn_obj, signer) =>
      match make_omi_address txn_obj action with
      | Raise e => (Raise e, st)
      | Ok address =>
          match _get_state_object address action st with
          | (Raise e, st') => (Raise e, st')
          | (Ok state_obj, st') =>
              match _check_authorization state_obj action signer with
              | Raise e => (Raise e, st')
              | Ok _ => _set_state_object address txn_obj st'
              end
          end
      end
  end.
Proof.
  unfold apply, mbind, M_bind, hbind, lift.
  destruct (_unpack_transaction transaction) as [[[action obj] signer]|e]; [|reflexivity].
  destruct (make_omi_address obj action) as [address|e]; [|reflexivity].
  destruct (_get_state_object address action st) as [[state_obj|e] st']; [|reflexivity].
  destruct (_check_authorization state_obj action signer) as [[]|e]; reflexivity.
Qed.

Lemma _get_state_object_unchanged (address action : string) (st : State) :
  snd (_get_state_object address action st) = st.
Proof. reflexivity. Qed.

Lemma _get_state_object_eq (address action : string) (st : State) :
  _get_state_object address action st =
  (match entries st !! address with
   | None => Ok None
   | Some d =>
       match _parse_object d action with
       | Ok obj => Ok (Some obj)
       | Raise IndexError => Ok None
       | Raise e => Raise e
       end
   end, st).
Proof.
  unfold _get_state_object. rewrite state_get_one.
  destruct (entries st !! address) as [d|]; simpl; [|reflexivity].
  unfold mbind, result_bind, rbind.
  destruct (_parse_object d action); reflexivity.
Qed.

Lemma _set_state_object_eq (address : string) (obj : pyobj) (st : State) :
  _set_state_object address obj st =
  if accepts st address
  then (Ok tt, {| entries := <[address := serialize obj]> (entries st);
                  accepts := accepts st |})
  else (Raise (InternalError "State error"), st).
Proof.
  unfold _set_state_object. rewrite state_set_one.
  destruct (accepts st address); reflexivity.
Qed.

Lemma _parse_object_WORK (d : string) : _parse_object d WORK = decoded OWork d.
Proof.
  unfold _parse_object, decoded. cbv zeta.
  replace (dict_get _ WORK) with (Ok WorkC) by (vm_compute; reflexivity).
  run_result. destruct (ParseFromString d); reflexivity.
Qed.

Lemma _parse_object_RECORDING (d : string) :
  _parse_object d RECORDING = decoded ORecording d.
Proof.
  unfold _parse_object, decoded. cbv zeta.
  replace (dict_get _ RECORDING) with (Ok RecordingC) by (vm_compute; reflexivity).
  run_result. destruct (ParseFromString d); reflexivity.
Qed.

Lemma _parse_object_INDIVIDUAL (d : string) :
  _parse_object d INDIVIDUAL = decoded OIndividual d.
Proof.
  unfold _parse_object, decoded. cbv zeta.
  replace (dict_get _ INDIVIDUAL) with (Ok IndividualIdentityC) by (vm_compute; reflexivity).
  run_result. destruct (ParseFromString d); reflexivity.
Qed.

Lemma _parse_object_ORGANIZATION (d : string) :
  _parse_object d ORGANIZATION = decoded OOrganization d.
Proof.
  unfold _parse_object, decoded. cbv zeta.
  replace (dict_get _ ORGANIZATION) with (Ok OrganizationalIdentityC)
    by (vm_compute; reflexivity).
  run_result. destruct (ParseFromString d); reflexivity.
Qed.

Lemma _parse_object_unknown (d action : string) :
  action <> WORK -> action <> RECORDING ->
  action <> INDIVIDUAL -> action <> ORGANIZATION ->
  _parse_object d action = Raise (KeyError action).
Proof.
  intros H1 H2 H3 H4. unfold _parse_object, dict_get. cbv zeta.
  rewrite !lookup_insert_ne by congruence.
  rewrite lookup_singleton_ne by congruence. reflexivity.
Qed.

Lemma _parse_object_case (d action : string) : parse_case d action (_parse_object d action).
Proof.
  destruct (decide (action = WORK)) as [->|H1];
    [rewrite _parse_object_WORK; now constructor|].
  destruct (decide (action = RECORDING)) as [->|H2];
    [rewrite _parse_object_RECORDING; now constructor|].
  destruct (decide (action = INDIVIDUAL)) as [->|H3];
    [rewrite _parse_object_INDIVIDUAL; now constructor|].
  destruct (decide (action = ORGANIZATION)) as [->|H4];
    [rewrite _parse_object_ORGANIZATION; now constructor|].
  rewrite _parse_object_unknown by assumption. now constructor.
Qed.

Lemma decoded_error {A : Type} `{Message A} (inj : A -> pyobj) (d : string) (e : exn) :
  decoded inj d = Raise e -> e = InvalidTransaction "Invalid action".
Proof. unfold decoded. destruct (ParseFromString d); congruence. Qed.

Lemma _parse_object_error (d action : string) (e : exn) :
  _parse_object d action = Raise e ->
  e = InvalidTransaction "Invalid action" \/ e = KeyError action.
Proof.
  destruct (_parse_object_case d action) as [?|?|?|?|? ? ? ?]; intros He.
  1-4: left; exact (decoded_error _ _ _ He).
  right. congruence.
Qed.

(** An object decoded under an action has that action's class, so its
    address is defined. *)
Lemma _parse_object_address (d action : string) (obj : pyobj) :
  _parse_object d action = Ok obj ->
  exists address, make_omi_address obj action = Ok address.
Proof.
  destruct (_parse_object_case d action) as [-> | -> | -> | -> | ? ? ? ?];
    unfold decoded; destruct (ParseFromString d) eqn:Hp; try discriminate;
    intros [= <-].
  - eexists; apply make_omi_address_WORK.
  - eexists; apply make_omi_address_RECORDING.
  - eexists; apply make_omi_address_INDIVIDUAL.
  - eexists; apply make_omi_address_ORGANIZATION.
Qed.

Lemma _parse_object_KeyError (d d' action key : string) :
  _parse_object d action = Raise (KeyError key) ->
  _parse_object d' action = Raise (KeyError action).
Proof.
  intros Hd.
  destruct (_parse_object_case d action) as [?|?|?|?|H1 H2 H3 H4].
  1-4: apply decoded_error in Hd; discriminate Hd.
  now apply _parse_object_unknown.
Qed.

Lemma _unpack_transaction_inv (transaction : Transaction)
    (action : string) (obj : pyobj) (signer : string) :
  _unpack_transaction transaction = Ok (action, obj, signer) ->
  exists hdr pl,
    ParseFromString (header transaction) = Some hdr
    /\ TransactionHeader.signer_pubkey hdr = signer
    /\ ParseFromString (payload transaction) = Some pl
    /\ OMITransactionPayload.action pl = action
    /\ _parse_object (data transaction) action = Ok obj.
Proof.
  unfold _unpack_transaction.
  destruct (ParseFromString (header transaction)) as [hdr|]; [|discriminate].
  destruct (ParseFromString (payload transaction)) as [pl|]; [|discriminate].
  cbv zeta. run_result.
  destruct (_parse_object (data transaction) (OMITransactionPayload.action pl)) as [o|e] eqn:Hp;
    [|discriminate].
  intros [= <- <- <-]. exists hdr, pl. auto.
Qed.

(** ** Authorization *)

Lemma neq_eqb_decide (k signer : string) :
  (if negb (String.eqb k signer)
   then Raise (InvalidTransaction "Signing key mismatch")
   else Ok tt)
  = if decide (k = signer) then Ok tt
    else Raise (InvalidTransaction "Signing key mismatch").
Proof.
  destruct (String.eqb_spec k signer); destruct (decide (k = signer));
    simpl; congruence.
Qed.

Lemma apply_authorization_failure (transaction : Transaction) (st : State)
    (action : string) (obj : pyobj) (signer address : string)
    (prior : option pyobj) (e : exn) :
  _unpack_transaction transaction = Ok (action, obj, signer) ->
  make_omi_address obj action = Ok address ->
  _get_state_object address action st = (Ok prior, st) ->
  _check_authorization prior action signer = Raise e ->
  apply transaction st = (Raise e, st).
Proof.
  intros Hu Ha Hg Hc. rewrite apply_unfold, Hu, Ha, Hg, Hc. reflexivity.
Qed.

Lemma apply_commit (transaction : Transaction) (st : State)
    (action : string) (obj : pyobj) (signer address : string) (prior : option pyobj) :
  _unpack_transaction transaction = Ok (action, obj, signer) ->
  make_omi_address obj action = Ok address ->
  _get_state_object address action st = (Ok prior, st) ->
  _check_authorization prior action signer = Ok tt ->
  apply transaction st = _set_state_object address obj st.
Proof.
  intros Hu Ha Hg Hc. rewrite apply_unfold, Hu, Ha, Hg, Hc. reflexivity.
Qed.

(** C3: with no prior record the authorization check passes; with a prior
    record it passes exactly when the record's owner field (pubkey of a
    Work or Recording, registering_pubkey of an identity) is the signer, and
    otherwise the check, and with it apply, fails with
    InvalidTransaction "Signing key mismatch". *)
Theorem check_authorization_owner :
  (forall action signer, _check_authorization None action signer = Ok tt)
  /\ (forall w signer,
        _check_authorization (Some (OWork w)) WORK signer
        = if decide (Work.pubkey w = signer) then Ok tt
          else Raise (InvalidTransaction "Signing key mismatch"))
  /\ (forall r signer,
        _check_authorization (Some (ORecording r)) RECORDING signer
        = if decide (Recording.pubkey r = signer) then Ok tt
          else Raise (InvalidTransaction "Signing key mismatch"))
  /\ (forall i signer,
        _check_authorization (Some (OIndividual i)) INDIVIDUAL signer
        = if decide (IndividualIdentity.registering_pubkey i = signer) then Ok tt
          else Raise (InvalidTransaction "Signing key mismatch"))
  /\ (forall o signer,
        _check_authorization (Some (OOrganization o)) ORGANIZATION signer
        = if decide (OrganizationalIdentity.registering_pubkey o = signer) then Ok tt
          else Raise (InvalidTransaction "Signing key mismatch"))
  /\ (forall transaction st action obj signer address prior,
        _unpack_transaction transaction = Ok (action, obj, signer) ->
        make_omi_address obj action = Ok address ->
        _get_state_object address action st = (Ok (Some prior), st) ->
        _check_authorization (Some prior) action signer
        = Raise (InvalidTransaction "Signing key mismatch") ->
        apply transaction st = (Raise (InvalidTransaction "Signing key mismatch"), st)).
Proof.
  split; [reflexivity|].
  split; [intros; apply neq_eqb_decide|].
  split; [intros; apply neq_eqb_decide|].
  split; [intros; apply neq_eqb_decide|].
  split; [intros; apply neq_eqb_decide|].
  intros. eapply apply_authorization_failure; eassumption.
Qed.

(** ** Failure leaves the store alone *)

Lemma _get_state_object_snd (address action : string) (st : State)
    (r : result (option pyobj)) (st' : State) :
  _get_state_object address action st = (r, st') -> st' = st.
Proof. unfold _get_state_object. now intros [= _ <-]. Qed.

Lemma _set_state_object_failure (address : string) (obj : pyobj)
    (st st' : State) (e : exn) :
  _set_state_object address obj st = (Raise e, st') ->
  e = InternalError "State error" /\ accepts st address = false /\ st' = st.
Proof.
  rewrite _set_state_object_eq. destruct (accepts st address); [discriminate|].
  now intros [= <- <-].
Qed.

(** C6: apply either fails before the commit, leaving the store as it
    was, or every check has passed and its result is that of the single
    write [_set_state_object]; in particular the store is unchanged on every
    failure. *)
Theorem apply_failure_no_write (transaction : Transaction) (st : State) :
  ((exists e, apply transaction st = (Raise e, st))
   \/ (exists action obj signer address prior,
         _unpack_transaction transaction = Ok (action, obj, signer)
         /\ make_omi_address obj action = Ok address
         /\ _get_state_object address action st = (Ok prior, st)
         /\ _check_authorization prior action signer = Ok tt
         /\ _check_split_sums obj action = Ok tt
         /\ _check_references obj action = Ok tt
         /\ apply transaction st = _set_state_object address obj st))
  /\ (forall e st', apply transaction st = (Raise e, st') -> st' = st).
Proof.
  rewrite apply_unfold.
  destruct (_unpack_transaction transaction) as [[[action obj] signer]|e] eqn:Hu;
    [|split; [left; eauto | now intros ? ? [= _ <-]]].
  destruct (make_omi_address obj action) as [address|e] eqn:Ha;
    [|split; [left; eauto | now intros ? ? [= _ <-]]].
  destruct (_get_state_object address action st) as [[prior|e] st1] eqn:Hg;
    pose proof (_get_state_object_snd _ _ _ _ _ Hg) as ->;
    [|split; [left; eauto | now intros ? ? [= _ <-]]].
  destruct (_check_authorization prior action signer) as [[]|e] eqn:Hc;
    [|split; [left; eauto | now intros ? ? [= _ <-]]].
  split.
  - right. exists action, obj, signer, address, prior. repeat split; assumption.
  - intros e st' Hs. now apply _set_state_object_failure in Hs.
Qed.

(** C8: at the commit, a store that returns no written address makes
    apply fail with InternalError; a store that acknowledges leaves the
    serialization of the new record at the address, whatever was there, and
    the other addresses as they were. *)
Theorem commit_acknowledgement (transaction : Transaction) (st : State)
    (action : string) (obj : pyobj) (signer address : string) (prior : option pyobj) :
  _unpack_transaction transaction = Ok (action, obj, signer) ->
  make_omi_address obj action = Ok address ->
  _get_state_object address action st = (Ok prior, st) ->
  _check_authorization prior action signer = Ok tt ->
  let written :=
    fst (state_set st [ {| se_address := address; se_data := serialize obj |} ]) in
  (written = [] ->
   apply transaction st = (Raise (InternalError "State error"), st))
  /\ (written <> [] ->
      exists st',
        apply transaction st = (Ok tt, st')
        /\ entries st' !! address = Some (serialize obj)
        /\ forall a, a <> address -> entries st' !! a = entries st !! a).
Proof.
  intros Hu Ha Hg Hc written.
  rewrite (apply_commit _ _ _ _ _ _ _ Hu Ha Hg Hc), _set_state_object_eq.
  subst written. rewrite state_set_one.
  destruct (accepts st address); simpl; split; try congruence.
  intros _. eexists. split; [reflexivity|]. simpl. split.
  - apply lookup_insert_eq.
  - intros a Hne. now apply lookup_insert_ne.
Qed.

(** C10: when the target address holds bytes that do not decode under the
    incoming action, apply fails with InvalidTransaction "Invalid action"
    and the store is unchanged; submitting those bytes as the record of the
    transaction fails in the same way. *)
Theorem stored_bytes_undecodable (transaction : Transaction) (st : State)
    (action : string) (obj : pyobj) (signer address d : string) :
  _unpack_transaction transaction = Ok (action, obj, signer) ->
  make_omi_address obj action = Ok address ->
  entries st !! address = Some d ->
  (forall o, _parse_object d action <> Ok o) ->
  apply transaction st = (Raise (InvalidTransaction "Invalid action"), st)
  /\ apply {| header := header transaction; payload := payload transaction; data := d |} st
     = (Raise (InvalidTransaction "Invalid action"), st).
Proof.
  intros Hu Ha Hd Hbad.
  destruct (_unpack_transaction_inv _ _ _ _ Hu) as (hdr & pl & Hh & Hs & Hp & Hact & Hobj).
  assert (Hraise : _parse_object d action = Raise (InvalidTransaction "Invalid action")).
  { destruct (_parse_object d action) as [o|e] eqn:He; [now destruct (Hbad o)|].
    destruct (_parse_object_error _ _ _ He) as [->| ->]; [reflexivity|].
    rewrite (_parse_object_KeyError _ (data transaction) _ _ He) in Hobj.
    discriminate Hobj. }
  split.
  - rewrite apply_unfold, Hu, Ha, _get_state_object_eq, Hd, Hraise. reflexivity.
  - rewrite apply_unfold. unfold _unpack_transaction. simpl.
    rewrite Hh, Hp, Hact, Hraise. reflexivity.
Qed.

(** C4, as the handler has it: a SetIndividualIdentity for an unoccupied
    address succeeds whoever signs it, provided the store acknowledges the
    write, and what is committed is the serialization of the submitted
    record, so that the stored registering_pubkey is the one the record
    carries. *)
Theorem first_writer_commits_submitted_record (transaction : Transaction) (st : State)
    (signer : string) (i : IndividualIdentity.t) (address : string) :
  _unpack_transaction transaction = Ok (INDIVIDUAL, OIndividual i, signer) ->
  make_omi_address (OIndividual i) INDIVIDUAL = Ok address ->
  entries st !! address = None ->
  accepts st address = true ->
  exists st',
    apply transaction st = (Ok tt, st')
    /\ entries st' !! address = Some (SerializeToString i)
    /\ (ParseFromString (SerializeToString i) = Some i ->
        _get_state_object address INDIVIDUAL st' = (Ok (Some (OIndividual i)), st')).
Proof.
  intros Hu Ha Hfree Hacc.
  rewrite apply_unfold, Hu, Ha, _get_state_object_eq, Hfree. simpl.
  rewrite _set_state_object_eq, Hacc.
  eexists. split; [reflexivity|]. simpl. split.
  - apply lookup_insert_eq.
  - intros Hrt. rewrite _get_state_object_eq. simpl.
    rewrite lookup_insert_eq, _parse_object_INDIVIDUAL. unfold decoded.
    rewrite Hrt. reflexivity.
Qed.

End HandlerProperties.

(** ** More on address derivation *)

Lemma _get_address_infix_unknown (action : string) :
  action <> WORK -> action <> RECORDING ->
  action <> INDIVIDUAL -> action <> ORGANIZATION ->
  _get_address_infix action = Raise (KeyError action).
Proof.
  intros H1 H2 H3 H4. unfold _get_address_infix, dict_get. cbv zeta.
  rewrite !lookup_insert_ne by congruence.
  rewrite lookup_singleton_ne by congruence. reflexivity.
Qed.

Lemma _get_address_infix_inv (action infix : string) :
  _get_address_infix action = Ok infix ->
  (action = WORK /\ infix = "a0") \/ (action = RECORDING /\ infix = "a1")
  \/ (action = INDIVIDUAL /\ infix = "00") \/ (action = ORGANIZATION /\ infix = "01").
Proof.
  destruct (decide (action = WORK)) as [-> | H1];
    [rewrite infix_WORK; intros [= <-]; auto|].
  destruct (decide (action = RECORDING)) as [-> | H2];
    [rewrite infix_RECORDING; intros [= <-]; auto|].
  destruct (decide (action = INDIVIDUAL)) as [-> | H3];
    [rewrite infix_INDIVIDUAL; intros [= <-]; auto|].
  destruct (decide (action = ORGANIZATION)) as [-> | H4];
    [rewrite infix_ORGANIZATION; intros [= <-]; auto 6|].
  rewrite _get_address_infix_unknown by assumption. discriminate.
Qed.

Lemma make_omi_address_inv (obj : pyobj) (action address : string) :
  make_omi_address obj action = Ok address ->
  exists infix key,
    _get_address_infix action = Ok infix
    /\ _get_unique_key obj action = Ok key
    /\ address = OMI_ADDRESS_PREFIX ++ infix ++ slice_last 62 (_hash_name key).
Proof.
  unfold make_omi_address. run_result.
  destruct (_get_address_infix action) as [infix|e]; [|discriminate].
  destruct (_get_unique_key obj action) as [key|e]; [|discriminate].
  intros [= <-]. eauto.
Qed.

Lemma make_omi_address_infix (obj : pyobj) (action address : string) :
  make_omi_address obj action = Ok address ->
  (action = WORK /\ substring 6 2 address = "a0")
  \/ (action = RECORDING /\ substring 6 2 address = "a1")
  \/ (action = INDIVIDUAL /\ substring 6 2 address = "00")
  \/ (action = ORGANIZATION /\ substring 6 2 address = "01").
Proof.
  intros Ha. destruct (make_omi_address_inv _ _ _ Ha) as (infix & key & Hi & _ & ->).
  destruct (_get_address_infix_inv _ _ Hi) as [[-> ->]|[[-> ->]|[[-> ->]|[-> ->]]]];
    rewrite infix_of_address; auto 6.
Qed.

Lemma make_omi_address_prefix (obj : pyobj) (action address : string) :
  make_omi_address obj action = Ok address ->
  slice_to 6 address = OMI_ADDRESS_PREFIX.
Proof.
  intros Ha. destruct (make_omi_address_inv _ _ _ Ha) as (infix & key & _ & _ & ->).
  rewrite OMI_ADDRESS_PREFIX_value. unfold slice_to.
  rewrite !append_String, append_empty. simpl.
  destruct (infix ++ slice_last 62 (_hash_name key)); reflexivity.
Qed.

(** Addresses derived under two different actions are different, whatever
    the records and their keys: records of different kinds never share an
    address. *)
Theorem addresses_of_different_actions_differ
    (obj1 obj2 : pyobj) (action1 action2 address1 address2 : string) :
  make_omi_address obj1 action1 = Ok address1 ->
  make_omi_address obj2 action2 = Ok address2 ->
  action1 <> action2 ->
  address1 <> address2.
Proof.
  intros H1 H2 Hne Heq. subst address2.
  destruct (make_omi_address_infix _ _ _ H1) as [[-> E1]|[[-> E1]|[[-> E1]|[-> E1]]]];
    destruct (make_omi_address_infix _ _ _ H2) as [[-> E2]|[[-> E2]|[[-> E2]|[-> E2]]]];
    try (now apply Hne); rewrite E1 in E2; discriminate E2.
Qed.

(** The ways address derivation fails: an action outside the four raises
    KeyError (the infix table is consulted first), and a known action on an
    object without the key attribute raises AttributeError; the fall-through
    of [_get_unique_key] is never reached. *)
Theorem make_omi_address_failure (obj : pyobj) (action : string) (e : exn) :
  make_omi_address obj action = Raise e ->
  (e = KeyError action
   /\ action <> WORK /\ action <> RECORDING
   /\ action <> INDIVIDUAL /\ action <> ORGANIZATION)
  \/ (e = AttributeError "title" /\ (action = WORK \/ action = RECORDING)
      /\ get_title obj = Raise e)
  \/ (e = AttributeError "name" /\ (action = INDIVIDUAL \/ action = ORGANIZATION)
      /\ get_name obj = Raise e).
Proof.
  unfold make_omi_address. run_result.
  destruct (_get_address_infix action) as [infix|e0] eqn:Hi.
  - destruct (_get_address_infix_inv _ _ Hi) as [[-> ->]|[[-> ->]|[[-> ->]|[-> ->]]]];
      destruct obj; simpl; intros [= <-]; auto 8.
  - intros [= <-].
    destruct (decide (action = WORK)) as [-> | H1];
      [rewrite infix_WORK in Hi; discriminate|].
    destruct (decide (action = RECORDING)) as [-> | H2];
      [rewrite infix_RECORDING in Hi; discriminate|].
    destruct (decide (action = INDIVIDUAL)) as [-> | H3];
      [rewrite infix_INDIVIDUAL in Hi; discriminate|].
    destruct (decide (action = ORGANIZATION)) as [-> | H4];
      [rewrite infix_ORGANIZATION in Hi; discriminate|].
    rewrite _get_address_infix_unknown in Hi by assumption.
    injection Hi as <-. auto 8.
Qed.

(** ** More on the transition *)

Section HandlerComposition.
Context `{MW : Message Work.t} `{MR : Message Recording.t}
        `{MI : Message IndividualIdentity.t}
        `{MO : Message OrganizationalIdentity.t}
        `{MH : Message TransactionHeader.t}
        `{MP : Message OMITransactionPayload.t}.

(** What a run does to the store: nothing on a failure, one insertion at
    the transaction's address on a success. *)
Lemma apply_cases (transaction : Transaction) (st : State)
    (r : result unit) (st' : State) :
  apply transaction st = (r, st') ->
  (st' = st /\ exists e, r = Raise e)
  \/ (exists action obj signer address,
        _unpack_transaction transaction = Ok (action, obj, signer)
        /\ make_omi_address obj action = Ok address
        /\ r = Ok tt
        /\ accepts st address = true
        /\ st' = {| entries := <[address := serialize obj]> (entries st);
                    accepts := accepts st |}).
Proof.
  rewrite apply_unfold.
  destruct (_unpack_transaction transaction) as [[[action obj] signer]|e] eqn:Hu;
    [|intros [= <- <-]; left; eauto].
  destruct (make_omi_address obj action) as [address|e] eqn:Ha;
    [|intros [= <- <-]; left; eauto].
  destruct (_get_state_object address action st) as [[prior|e] st1] eqn:Hg;
    pose proof (_get_state_object_snd _ _ _ _ _ Hg) as ->;
    [|intros [= <- <-]; left; eauto].
  destruct (_check_authorization prior action signer) as [[]|e] eqn:Hc;
    [|intros [= <- <-]; left; eauto].
  rewrite _set_state_object_eq.
  destruct (accepts st address) eqn:Hacc; intros [= <- <-]; [|left; eauto].
  right. exists action, obj, signer, address. auto.
Qed.

(** Whatever the outcome of a run, the only entry that can differ
    afterwards is the one at the address derived from the transaction's own
    record: a transaction that does not decode and a run that fails change
    nothing; no entry is removed and the store's acceptance stays as it
    was. *)
Theorem apply_frame (transaction : Transaction) (st : State)
    (r : result unit) (st' : State) :
  apply transaction st = (r, st') ->
  accepts st' = accepts st
  /\ (forall a, is_Some (entries st !! a) -> is_Some (entries st' !! a))
  /\ (forall e, r = Raise e -> st' = st)
  /\ (forall a,
        entries st' !! a <> entries st !! a ->
        exists action obj signer,
          _unpack_transaction transaction = Ok (action, obj, signer)
          /\ make_omi_address obj action = Ok a)
  /\ (forall action obj signer address a,
        _unpack_transaction transaction = Ok (action, obj, signer) ->
        make_omi_address obj action = Ok address ->
        a <> address ->
        entries st' !! a = entries st !! a).
Proof.
  intros Happ.
  destruct (apply_cases _ _ _ _ Happ)
    as [[-> _] | (action & obj & signer & address & Hu & Ha & -> & _ & ->)].
  - repeat split; auto. intros a Hchg. now destruct Hchg.
  - cbn [entries accepts]. split; [reflexivity|]. split; [|split; [|split]].
    + intros a Hsome. destruct (decide (a = address)) as [-> | Hne].
      * rewrite lookup_insert_eq. eauto.
      * now rewrite lookup_insert_ne by congruence.
    + intros e He. discriminate He.
    + intros a Hchg. destruct (decide (a = address)) as [-> | Hne].
      * exists action, obj, signer. auto.
      * rewrite lookup_insert_ne in Hchg by congruence. now destruct Hchg.
    + intros action' obj' signer' address' a Hu' Ha' Hne.
      rewrite Hu in Hu'. injection Hu' as <- <- <-.
      rewrite Ha in Ha'. injection Ha' as <-.
      now rewrite lookup_insert_ne by congruence.
Qed.

(** Every entry a run changes lies under the namespace prefix the handler
    declares in [namespaces]. *)
Theorem apply_writes_within_namespace (transaction : Transaction) (st : State)
    (r : result unit) (st' : State) (a : string) :
  apply transaction st = (r, st') ->
  entries st' !! a <> entries st !! a ->
  In (slice_to 6 a) namespaces.
Proof.
  intros Happ Hchg.
  destruct (apply_cases _ _ _ _ Happ)
    as [[-> _] | (action & obj & signer & address & Hu & Ha & _ & _ & ->)].
  - now destruct Hchg.
  - simpl in Hchg. destruct (decide (a = address)) as [-> | Hne].
    + left. symmetry. eapply make_omi_address_prefix, Ha.
    + rewrite lookup_insert_ne in Hchg by congruence. now destruct Hchg.
Qed.

(** The outcome of a run, and the entry it leaves at the transaction's
    address, depend on the store only through the entry at that address
    and the store's acceptance of it. *)
Theorem apply_outcome_local (transaction : Transaction) (st1 st2 : State)
    (action : string) (obj : pyobj) (signer address : string) :
  _unpack_transaction transaction = Ok (action, obj, signer) ->
  make_omi_address obj action = Ok address ->
  entries st1 !! address = entries st2 !! address ->
  accepts st1 address = accepts st2 address ->
  fst (apply transaction st1) = fst (apply transaction st2)
  /\ entries (snd (apply transaction st1)) !! address
     = entries (snd (apply transaction st2)) !! address.
Proof.
  intros Hu Ha He Hacc.
  rewrite !apply_unfold, Hu, Ha, !_get_state_object_eq, He.
  destruct (match entries st2 !! address with
            | Some d =>
                match _parse_object d action with
                | Ok o => Ok (Some o)
                | Raise IndexError => Ok None
                | Raise e => Raise e
                end
            | None => Ok None
            end) as [prior|e]; [|simpl; auto].
  destruct (_check_authorization prior action signer) as [[]|e]; [|simpl; auto].
  rewrite !_set_state_object_eq, Hacc.
  destruct (accepts st2 address); simpl; [|auto].
  now rewrite !lookup_insert_eq.
Qed.

(** When a run succeeds: the envelope and the record decode, the target
    address is free or holds a record that decodes and whose owner field is
    the signer, and the store accepts the write; the resulting store is the
    prior one with the record's serialization at the address. *)
Theorem apply_succeeds_iff (transaction : Transaction) (st st' : State) :
  apply transaction st = (Ok tt, st') <->
  exists action obj signer address,
    _unpack_transaction transaction = Ok (action, obj, signer)
    /\ make_omi_address obj action = Ok address
    /\ (entries st !! address = None
        \/ exists d prior,
             entries st !! address = Some d
             /\ _parse_object d action = Ok prior
             /\ _check_authorization (Some prior) action signer = Ok tt)
    /\ accepts st address = true
    /\ st' = {| entries := <[address := serialize obj]> (entries st);
                accepts := accepts st |}.
Proof.
  split.
  - rewrite apply_unfold.
    destruct (_unpack_transaction transaction) as [[[action obj] signer]|e] eqn:Hu;
      [|discriminate].
    destruct (make_omi_address obj action) as [address|e] eqn:Ha; [|discriminate].
    rewrite _get_state_object_eq.
    destruct (entries st !! address) as [d|] eqn:Hd.
    + destruct (_parse_object d action) as [prior|e] eqn:Hp.
      * destruct (_check_authorization (Some prior) action signer) as [[]|e] eqn:Hc;
          [|discriminate].
        rewrite _set_state_object_eq.
        destruct (accepts st address) eqn:Hacc; [|discriminate].
        intros [= <-]. exists action, obj, signer, address.
        repeat split; eauto 8.
      * destruct (_parse_object_error _ _ _ Hp) as [-> | ->]; discriminate.
    + simpl. rewrite _set_state_object_eq.
      destruct (accepts st address) eqn:Hacc; [|discriminate].
      intros [= <-]. exists action, obj, signer, address. auto 8.
  - intros (action & obj & signer & address & Hu & Ha & Hprior & Hacc & ->).
    rewrite apply_unfold, Hu, Ha, _get_state_object_eq.
    destruct Hprior as [-> | (d & prior & -> & -> & Hc)].
    + simpl. now rewrite _set_state_object_eq, Hacc.
    + rewrite Hc. now rewrite _set_state_object_eq, Hacc.
Qed.

(** ** Commit, load and the next transaction *)

(** A committed record is read back by a load of its address under the
    same action, provided its serialization decodes to it. *)
Theorem commit_then_load (address action : string) (obj : pyobj) (st st' : State) :
  _set_state_object address obj st = (Ok tt, st') ->
  _parse_object (serialize obj) action = Ok obj ->
  _get_state_object address action st' = (Ok (Some obj), st').
Proof.
  rewrite _set_state_object_eq.
  destruct (accepts st address); [|discriminate].
  intros [= <-] Hrt. rewrite _get_state_object_eq. simpl.
  now rewrite lookup_insert_eq, Hrt.
Qed.

(** Loading an unoccupied address gives no record and no error, for every
    action, known or not: the empty result is met before the class table is
    consulted.  An occupied address under an unknown action raises
    KeyError. *)
Theorem load_edge_cases (address action : string) (st : State) :
  (entries st !! address = None ->
   _get_state_object address action st = (Ok None, st))
  /\ (forall d,
        entries st !! address = Some d ->
        action <> WORK -> action <> RECORDING ->
        action <> INDIVIDUAL -> action <> ORGANIZATION ->
        _get_state_object address action st = (Raise (KeyError action), st)).
Proof.
  split.
  - intros Hfree. now rewrite _get_state_object_eq, Hfree.
  - intros d Hd H1 H2 H3 H4.
    rewrite _get_state_object_eq, Hd, _parse_object_unknown by assumption.
    reflexivity.
Qed.

(** The run on a store whose entry at the address is a committed record,
    whatever the store accepts by then. *)
Lemma apply_on_committed (t2 : Transaction) (m : gmap string string)
    (acc : string -> bool)
    (action : string) (obj1 obj2 : pyobj) (s2 address : string) :
  _unpack_transaction t2 = Ok (action, obj2, s2) ->
  make_omi_address obj2 action = Ok address ->
  _parse_object (serialize obj1) action = Ok obj1 ->
  apply t2 {| entries := <[address := serialize obj1]> m; accepts := acc |}
  = match _check_authorization (Some obj1) action s2 with
    | Raise e =>
        (Raise e, {| entries := <[address := serialize obj1]> m; accepts := acc |})
    | Ok _ =>
        if acc address
        then (Ok tt, {| entries := <[address := serialize obj2]> m; accepts := acc |})
        else (Raise (InternalError "State error"),
              {| entries := <[address := serialize obj1]> m; accepts := acc |})
    end.
Proof.
  intros Hu Ha Hrt.
  rewrite apply_unfold, Hu, Ha, _get_state_object_eq. cbn [entries accepts].
  rewrite lookup_insert_eq, Hrt.
  destruct (_check_authorization (Some obj1) action s2) as [[]|e]; [|reflexivity].
  rewrite _set_state_object_eq. cbn [entries accepts].
  destruct (acc address); [|reflexivity].
  now rewrite insert_insert_eq.
Qed.

Lemma apply_success_store (t1 : Transaction) (st st1 : State)
    (action : string) (obj1 : pyobj) (s1 address : string) :
  _unpack_transaction t1 = Ok (action, obj1, s1) ->
  make_omi_address obj1 action = Ok address ->
  apply t1 st = (Ok tt, st1) ->
  accepts st address = true
  /\ st1 = {| entries := <[address := serialize obj1]> (entries st);
              accepts := accepts st |}.
Proof.
  intros Hu Ha Happ.
  destruct (apply_cases _ _ _ _ Happ)
    as [[_ [e He]] | (action' & obj' & signer' & address' & Hu' & Ha' & _ & Hacc & ->)];
    [discriminate He|].
  rewrite Hu in Hu'. injection Hu' as <- <- <-.
  rewrite Ha in Ha'. injection Ha' as <-. auto.
Qed.

(** A transaction for the address a previous one has written, run on the
    entries that one left and whatever the store accepts by then ([acc]),
    is authorized against the record that one committed, not against its
    signer, provided the committed record's serialization decodes back to
    it.  An authorization failure leaves the store as it was; when
    authorized, the run replaces the record if the store accepts the write,
    the entries then being as if the first transaction had never run, and
    raises InternalError if it does not. *)
Theorem next_transaction_checked_against_committed_record
    (t1 t2 : Transaction) (st st1 : State)
    (action : string) (obj1 obj2 : pyobj) (s1 s2 address : string)
    (acc : string -> bool) :
  _unpack_transaction t1 = Ok (action, obj1, s1) ->
  make_omi_address obj1 action = Ok address ->
  apply t1 st = (Ok tt, st1) ->
  _parse_object (serialize obj1) action = Ok obj1 ->
  _unpack_transaction t2 = Ok (action, obj2, s2) ->
  make_omi_address obj2 action = Ok address ->
  apply t2 {| entries := entries st1; accepts := acc |}
  = match _check_authorization (Some obj1) action s2 with
    | Raise e => (Raise e, {| entries := entries st1; accepts := acc |})
    | Ok _ =>
        if acc address
        then (Ok tt, {| entries := <[address := serialize obj2]> (entries st);
                        accepts := acc |})
        else (Raise (InternalError "State error"),
              {| entries := entries st1; accepts := acc |})
    end.
Proof.
  intros Hu1 Ha1 Happ Hrt Hu2 Ha2.
  destruct (apply_success_store _ _ _ _ _ _ _ Hu1 Ha1 Happ) as [_ ->].
  cbn [entries]. now apply apply_on_committed.
Qed.

(** Replaying a successful transaction on the entries it left succeeds
    again and leaves them as they are, provided the record's serialization
    decodes back to it, the record names the transaction's signer as its
    owner, and the store accepts the write at the record's address. *)
Theorem replay_is_idempotent (t : Transaction) (st st1 : State)
    (action : string) (obj : pyobj) (signer address : string)
    (acc : string -> bool) :
  _unpack_transaction t = Ok (action, obj, signer) ->
  make_omi_address obj action = Ok address ->
  apply t st = (Ok tt, st1) ->
  _parse_object (serialize obj) action = Ok obj ->
  _check_authorization (Some obj) action signer = Ok tt ->
  acc address = true ->
  apply t {| entries := entries st1; accepts := acc |}
  = (Ok tt, {| entries := entries st1; accepts := acc |}).
Proof.
  intros Hu Ha Happ Hrt Hc Hacc.
  destruct (apply_success_store _ _ _ _ _ _ _ Hu Ha Happ) as [_ ->].
  cbn [entries].
  rewrite (apply_on_committed t (entries st) acc action obj obj signer address Hu Ha Hrt).
  rewrite Hc, Hacc. reflexivity.
Qed.

(** Ownership of a Work: after a Work has been committed, and provided its
    serialization decodes back to it, a SetWork for the same title run on
    the entries left is decided by the committed [pubkey]: a signer other
    than it gets InvalidTransaction "Signing key mismatch" and the store
    stays; the signer named by it replaces the record when the store accepts
    the write ([acc]) and gets InternalError when it does not. *)
Theorem work_update_requires_committed_pubkey
    (t1 t2 : Transaction) (st st1 : State) (w1 w2 : Work.t) (s1 s2 : string)
    (acc : string -> bool) :
  _unpack_transaction t1 = Ok (WORK, OWork w1, s1) ->
  apply t1 st = (Ok tt, st1) ->
  ParseFromString (SerializeToString w1) = Some w1 ->
  _unpack_transaction t2 = Ok (WORK, OWork w2, s2) ->
  Work.title w2 = Work.title w1 ->
  exists address,
    make_omi_address (OWork w2) WORK = Ok address
    /\ apply t2 {| entries := entries st1; accepts := acc |}
       = if decide (Work.pubkey w1 = s2)
         then if acc address
              then (Ok tt, {| entries := <[address := SerializeToString w2]> (entries st);
                              accepts := acc |})
              else (Raise (InternalError "State error"),
                    {| entries := entries st1; accepts := acc |})
         else (Raise (InvalidTransaction "Signing key mismatch"),
               {| entries := entries st1; accepts := acc |}).
Proof.
  intros Hu1 Happ Hrt Hu2 Htitle.
  pose proof (make_omi_address_WORK w1) as Ha1.
  pose proof (make_omi_address_WORK w2) as Ha2. rewrite Htitle in Ha2.
  assert (Hrt' : _parse_object (serialize (OWork w1)) WORK = Ok (OWork w1))
    by (rewrite _parse_object_WORK; unfold decoded; simpl; now rewrite Hrt).
  destruct (apply_success_store _ _ _ _ _ _ _ Hu1 Ha1 Happ) as [_ ->].
  eexists. split; [exact Ha2|]. cbn [entries].
  rewrite (apply_on_committed t2 (entries st) acc WORK (OWork w1) (OWork w2) s2 _
             Hu2 Ha2 Hrt').
  change (_check_authorization (Some (OWork w1)) WORK s2)
    with (if negb (String.eqb (Work.pubkey w1) s2)
          then Raise (InvalidTransaction "Signing key mismatch")
          else Ok tt).
  rewrite neq_eqb_decide.
  destruct (decide (Work.pubkey w1 = s2)); reflexivity.
Qed.

(** ** The failures of a run *)

Lemma _unpack_transaction_error (transaction : Transaction) (e : exn) :
  _unpack_transaction transaction = Raise e ->
  e = DecodeError \/ e = InvalidTransaction "Invalid action"
  \/ exists action, e = KeyError action.
Proof.
  unfold _unpack_transaction.
  destruct (ParseFromString (header transaction)) as [hdr|];
    [|intros [= <-]; auto].
  destruct (ParseFromString (payload transaction)) as [pl|];
    [|intros [= <-]; auto].
  cbv zeta. run_result.
  destruct (_parse_object (data transaction) (OMITransactionPayload.action pl))
    as [o|e0] eqn:Hp; [discriminate|].
  intros [= <-]. destruct (_parse_object_error _ _ _ Hp) as [-> | ->]; eauto.
Qed.

Lemma _check_authorization_decoded (d action signer : string) (prior : pyobj) (e : exn) :
  _parse_object d action = Ok prior ->
  _check_authorization (Some prior) action signer = Raise e ->
  e = InvalidTransaction "Signing key mismatch".
Proof.
  destruct (_parse_object_case d action) as [-> | -> | -> | -> | ? ? ? ?];
    unfold decoded; try discriminate;
    destruct (ParseFromString d); try discriminate; intros [= <-];
    simpl; run_result;
    match goal with
    | |- (if negb ?b then _ else _) = _ -> _ => destruct b; simpl; congruence
    end.
Qed.

(** A run that fails raises DecodeError (envelope), KeyError (unknown
    action), InvalidTransaction "Invalid action" (record or stored bytes),
    InvalidTransaction "Signing key mismatch" or InternalError "State error";
    the attribute, unbound-variable and index errors of the helpers never
    leave it. *)
Theorem apply_failure_kinds (transaction : Transaction) (st st' : State) (e : exn) :
  apply transaction st = (Raise e, st') ->
  e = DecodeError
  \/ (exists action, e = KeyError action)
  \/ e = InvalidTransaction "Invalid action"
  \/ e = InvalidTransaction "Signing key mismatch"
  \/ e = InternalError "State error".
Proof.
  rewrite apply_unfold.
  destruct (_unpack_transaction transaction) as [[[action obj] signer]|e0] eqn:Hu.
  2: { intros [= <- _].
       destruct (_unpack_transaction_error _ _ Hu) as [-> | [-> | [a ->]]]; eauto 6. }
  destruct (_unpack_transaction_inv _ _ _ _ Hu) as (_ & _ & _ & _ & _ & _ & Hobj).
  destruct (_parse_object_address _ _ _ Hobj) as [address Ha]. rewrite Ha.
  rewrite _get_state_object_eq.
  destruct (entries st !! address) as [d|] eqn:Hd.
  - destruct (_parse_object d action) as [prior|e0] eqn:Hp.
    + destruct (_check_authorization (Some prior) action signer) as [[]|e1] eqn:Hc.
      * intros Hs. apply _set_state_object_failure in Hs as (-> & _ & _). auto 6.
      * intros [= <- _]. rewrite (_check_authorization_decoded _ _ _ _ _ Hp Hc). auto 6.
    + destruct (_parse_object_error _ _ _ Hp) as [-> | ->]; intros [= <- _]; eauto 6.
  - simpl. intros Hs. apply _set_state_object_failure in Hs as (-> & _ & _). auto 6.
Qed.

(** An action outside the four makes the run raise KeyError, a programmer
    error rather than InvalidTransaction, with the store unchanged. *)
Theorem apply_unknown_action (transaction : Transaction) (st : State)
    (hdr : TransactionHeader.t) (pl : OMITransactionPayload.t) :
  ParseFromString (header transaction) = Some hdr ->
  ParseFromString (payload transaction) = Some pl ->
  ~ In (OMITransactionPayload.action pl) [WORK; RECORDING; INDIVIDUAL; ORGANIZATION] ->
  apply transaction st = (Raise (KeyError (OMITransactionPayload.action pl)), st).
Proof.
  intros Hh Hp Hun.
  rewrite apply_unfold. unfold _unpack_transaction. rewrite Hh, Hp. cbv zeta.
  rewrite _parse_object_unknown; [reflexivity|..];
    intros Heq; apply Hun; rewrite Heq; simpl; auto.
Qed.

(** An envelope whose header or payload does not decode makes the run
    raise DecodeError, neither InvalidTransaction nor InternalError, before
    the action or the record is looked at; the store is unchanged. *)
Theorem apply_envelope_decode_failure (transaction : Transaction) (st : State) :
  (ParseFromString (header transaction) = @None TransactionHeader.t ->
   apply transaction st = (Raise DecodeError, st))
  /\ (ParseFromString (payload transaction) = @None OMITransactionPayload.t ->
      apply transaction st = (Raise DecodeError, st)).
Proof.
  split; intros Hnone; rewrite apply_unfold; unfold _unpack_transaction.
  - now rewrite Hnone.
  - rewrite Hnone. now destruct (ParseFromString (header transaction)).
Qed.

(** The object a transaction unpacks to has the class its action selects,
    the action being one of the four: the attribute reads that follow in
    the run are reads of fields the object has. *)
Theorem unpacked_object_class (transaction : Transaction)
    (action : string) (obj : pyobj) (signer : string) :
  _unpack_transaction transaction = Ok (action, obj, signer) ->
  (action = WORK /\ exists w, obj = OWork w)
  \/ (action = RECORDING /\ exists r, obj = ORecording r)
  \/ (action = INDIVIDUAL /\ exists i, obj = OIndividual i)
  \/ (action = ORGANIZATION /\ exists o, obj = OOrganization o).
Proof.
  intros Hu.
  destruct (_unpack_transaction_inv _ _ _ _ Hu) as (_ & _ & _ & _ & _ & _ & Hobj).
  revert Hobj.
  destruct (_parse_object_case (data transaction) action) as [-> | -> | -> | -> | ? ? ? ?];
    unfold decoded; try discriminate;
    destruct (ParseFromString (data transaction)); try discriminate;
    intros [= <-]; eauto 8.
Qed.

End HandlerComposition.

(** ** Runs on concrete transactions *)

Import SexpWire Fixtures.

Lemma check_authorization_owner_witness :
  apply (make_transaction "K2" WORK (song "K2" [] [])) song_state
  = (Raise (InvalidTransaction "Signing key mismatch"), song_state).
Proof.
  apply (proj2 (proj2 (proj2 (proj2 (proj2 check_authorization_owner))))
           (make_transaction "K2" WORK (song "K2" [] [])) song_state
           WORK (song "K2" [] []) "K2" song_address (song "K1" [] []));
    vm_compute; reflexivity.
Defined.

Lemma apply_failure_no_write_witness :
  apply (make_transaction "K2" WORK (song "K2" [] [])) song_state
  = (Raise (InvalidTransaction "Signing key mismatch"), song_state)
  /\ song_state = song_state.
Proof.
  assert (H : apply (make_transaction "K2" WORK (song "K2" [] [])) song_state
              = (Raise (InvalidTransaction "Signing key mismatch"), song_state))
    by (vm_compute; reflexivity).
  split; [exact H|].
  exact (proj2 (apply_failure_no_write
                  (make_transaction "K2" WORK (song "K2" [] [])) song_state) _ _ H).
Defined.

Lemma commit_acknowledgement_witness :
  apply (make_transaction "K2" INDIVIDUAL alice) rejecting_state
  = (Raise (InternalError "State error"), rejecting_state)
  /\ exists st',
       apply (make_transaction "K1" WORK (song "K1" [] [100%Z])) song_state = (Ok tt, st')
       /\ entries st' !! song_address = Some (serialize (song "K1" [] [100%Z]))
       /\ forall a, a <> song_address -> entries st' !! a = entries song_state !! a.
Proof.
  split.
  - refine (proj1 (commit_acknowledgement
                     (make_transaction "K2" INDIVIDUAL alice) rejecting_state
                     INDIVIDUAL alice "K2" alice_address None _ _ _ _) _);
      vm_compute; reflexivity.
  - refine (proj2 (commit_acknowledgement
                     (make_transaction "K1" WORK (song "K1" [] [100%Z])) song_state
                     WORK (song "K1" [] [100%Z]) "K1" song_address
                     (Some (song "K1" [] [])) _ _ _ _) _);
      vm_compute; try reflexivity; discriminate.
Defined.

Lemma stored_bytes_undecodable_witness :
  apply (make_transaction "K2" INDIVIDUAL alice) garbled_state
  = (Raise (InvalidTransaction "Invalid action"), garbled_state)
  /\ apply {| header := header (make_transaction "K2" INDIVIDUAL alice);
              payload := payload (make_transaction "K2" INDIVIDUAL alice);
              data := "((" |} garbled_state
     = (Raise (InvalidTransaction "Invalid action"), garbled_state).
Proof.
  apply (stored_bytes_undecodable
           (make_transaction "K2" INDIVIDUAL alice) garbled_state
           INDIVIDUAL alice "K2" alice_address "((").
  - vm_compute; reflexivity.
  - vm_compute; reflexivity.
  - vm_compute; reflexivity.
  - intros o. vm_compute. discriminate.
Defined.

Lemma first_writer_commits_submitted_record_witness :
  exists st',
    apply (make_transaction "K2" INDIVIDUAL alice) empty_state = (Ok tt, st')
    /\ entries st' !! alice_address
       = Some (SerializeToString (IndividualIdentity.Build "alice" "K1"))
    /\ (ParseFromString (SerializeToString (IndividualIdentity.Build "alice" "K1"))
        = Some (IndividualIdentity.Build "alice" "K1") ->
        _get_state_object alice_address INDIVIDUAL st' = (Ok (Some alice), st')).
Proof.
  apply (first_writer_commits_submitted_record
           (make_transaction "K2" INDIVIDUAL alice) empty_state "K2"
           (IndividualIdentity.Build "alice" "K1") alice_address);
    vm_compute; reflexivity.
Defined.

(** C4 as stated fails: K2 registers alice at a free address with a
    record that carries K1; the transaction succeeds and the stored
    registering_pubkey is K1, not the signer. *)
Lemma first_writer_signer_counterexample :
  make_omi_address alice INDIVIDUAL = Ok alice_address
  /\ entries empty_state !! alice_address = None
  /\ exists st' i,
       apply (make_transaction "K2" INDIVIDUAL alice) empty_state = (Ok tt, st')
       /\ _get_state_object alice_address INDIVIDUAL st' = (Ok (Some (OIndividual i)), st')
       /\ IndividualIdentity.registering_pubkey i <> "K2".
Proof.
  split; [vm_compute; reflexivity|].
  split; [vm_compute; reflexivity|].
  exists (snd (apply (make_transaction "K2" INDIVIDUAL alice) empty_state)).
  exists (IndividualIdentity.Build "alice" "K1").
  split; [vm_compute; reflexivity|].
  split; [vm_compute; reflexivity|].
  simpl. discriminate.
Qed.

(** C1 on the code: a Work whose splits are 40, 35 and 20 passes the
    split-sum check and is committed. *)
Theorem split_sums_not_checked :
  foldr Z.add 0%Z [40; 35; 20]%Z <> 100%Z
  /\ _check_split_sums (song "K1" [] [40; 35; 20]%Z) WORK = Ok tt
  /\ exists st',
       apply (make_transaction "K1" WORK (song "K1" [] [40; 35; 20]%Z)) empty_state
       = (Ok tt, st')
       /\ entries st' !! song_address
          = Some (serialize (song "K1" [] [40; 35; 20]%Z)).
Proof.
  split; [vm_compute; discriminate|].
  split; [reflexivity|].
  exists (snd (apply (make_transaction "K1" WORK (song "K1" [] [40; 35; 20]%Z)) empty_state)).
  split; vm_compute; reflexivity.
Qed.

(** C2 on the code: a Work naming the songwriter bob, who has no entry in
    the store, passes the reference check and is committed. *)
Theorem references_not_checked :
  make_omi_address (OIndividual (IndividualIdentity.Build "bob" "K3")) INDIVIDUAL
  = Ok bob_address
  /\ state_get empty_state [bob_address] = []
  /\ _check_references (song "K1" ["bob"] []) WORK = Ok tt
  /\ exists st',
       apply (make_transaction "K1" WORK (song "K1" ["bob"] [])) empty_state = (Ok tt, st')
       /\ entries st' !! song_address = Some (serialize (song "K1" ["bob"] [])).
Proof.
  split; [vm_compute; reflexivity|].
  split; [vm_compute; reflexivity|].
  split; [reflexivity|].
  exists (snd (apply (make_transaction "K1" WORK (song "K1" ["bob"] [])) empty_state)).
  split; vm_compute; reflexivity.
Qed.

(** ** Further runs *)

Lemma addresses_of_different_actions_differ_witness :
  alice_address
  <> "38aa500172c90c8d3385d47ede5420a7a9623aad817d9f8a70bd100a0acea7400daa59".
Proof.
  apply (addresses_of_different_actions_differ
           alice (OOrganization (OrganizationalIdentity.Build "alice" "K1"))
           INDIVIDUAL ORGANIZATION).
  - vm_compute; reflexivity.
  - vm_compute; reflexivity.
  - vm_compute; discriminate.
Defined.

Lemma make_omi_address_failure_witness :
  (KeyError "DeleteWork" = KeyError "DeleteWork"
   /\ "DeleteWork" <> WORK /\ "DeleteWork" <> RECORDING
   /\ "DeleteWork" <> INDIVIDUAL /\ "DeleteWork" <> ORGANIZATION)
  \/ (KeyError "DeleteWork" = AttributeError "title"
      /\ ("DeleteWork" = WORK \/ "DeleteWork" = RECORDING)
      /\ get_title alice = Raise (KeyError "DeleteWork"))
  \/ (KeyError "DeleteWork" = AttributeError "name"
      /\ ("DeleteWork" = INDIVIDUAL \/ "DeleteWork" = ORGANIZATION)
      /\ get_name alice = Raise (KeyError "DeleteWork")).
Proof.
  apply (make_omi_address_failure alice "DeleteWork" (KeyError "DeleteWork")).
  vm_compute; reflexivity.
Defined.

Lemma apply_frame_witness :
  (exists action obj signer,
     _unpack_transaction (make_transaction "K2" INDIVIDUAL alice) = Ok (action, obj, signer)
     /\ make_omi_address obj action = Ok alice_address)
  /\ entries (snd (apply (make_transaction "K2" INDIVIDUAL alice) song_state))
       !! song_address
     = entries song_state !! song_address.
Proof.
  assert (Hrun : apply (make_transaction "K2" INDIVIDUAL alice) song_state
                 = (Ok tt, snd (apply (make_transaction "K2" INDIVIDUAL alice) song_state)))
    by (vm_compute; reflexivity).
  destruct (apply_frame _ _ _ _ Hrun) as (_ & _ & _ & Hchanged & Hother).
  split.
  - apply Hchanged. vm_compute; discriminate.
  - apply (Hother INDIVIDUAL alice "K2" alice_address song_address).
    + vm_compute; reflexivity.
    + vm_compute; reflexivity.
    + vm_compute; discriminate.
Defined.

Lemma apply_writes_within_namespace_witness :
  In (slice_to 6 alice_address) namespaces.
Proof.
  refine (apply_writes_within_namespace
            (make_transaction "K2" INDIVIDUAL alice) empty_state (Ok tt)
            (snd (apply (make_transaction "K2" INDIVIDUAL alice) empty_state))
            alice_address _ _).
  - vm_compute; reflexivity.
  - vm_compute; discriminate.
Defined.

Lemma apply_outcome_local_witness :
  entries empty_state <> entries song_state
  /\ fst (apply (make_transaction "K2" INDIVIDUAL alice) empty_state)
     = fst (apply (make_transaction "K2" INDIVIDUAL alice) song_state)
  /\ entries (snd (apply (make_transaction "K2" INDIVIDUAL alice) empty_state))
       !! alice_address
     = entries (snd (apply (make_transaction "K2" INDIVIDUAL alice) song_state))
         !! alice_address.
Proof.
  split; [vm_compute; discriminate|].
  apply (apply_outcome_local (make_transaction "K2" INDIVIDUAL alice)
           empty_state song_state INDIVIDUAL alice "K2" alice_address);
    vm_compute; reflexivity.
Defined.

Lemma commit_then_load_witness :
  _get_state_object alice_address INDIVIDUAL
    (snd (_set_state_object alice_address alice empty_state))
  = (Ok (Some alice), snd (_set_state_object alice_address alice empty_state)).
Proof.
  apply (commit_then_load alice_address INDIVIDUAL alice empty_state);
    vm_compute; reflexivity.
Defined.

Lemma load_edge_cases_witness :
  _get_state_object alice_address "DeleteWork" empty_state = (Ok None, empty_state)
  /\ _get_state_object alice_address "DeleteWork" garbled_state
     = (Raise (KeyError "DeleteWork"), garbled_state).
Proof.
  split.
  - apply (proj1 (load_edge_cases alice_address "DeleteWork" empty_state)).
    vm_compute; reflexivity.
  - apply (proj2 (load_edge_cases alice_address "DeleteWork" garbled_state) "((").
    + vm_compute; reflexivity.
    + vm_compute; discriminate.
    + vm_compute; discriminate.
    + vm_compute; discriminate.
    + vm_compute; discriminate.
Defined.

(** The work committed by K1 names K1.  K1 hands it over to K2 and is
    accepted; K2 trying to take it is refused; a store that no longer accepts
    the address answers the owner with InternalError. *)
Lemma next_transaction_checked_against_committed_record_witness :
  apply (make_transaction "K1" WORK (song "K2" [] []))
    {| entries := entries song_state; accepts := fun _ => true |}
  = (Ok tt, {| entries := <[song_address := serialize (song "K2" [] [])]>
                            (entries empty_state);
               accepts := fun _ => true |})
  /\ apply (make_transaction "K2" WORK (song "K2" [] []))
       {| entries := entries song_state; accepts := fun _ => true |}
     = (Raise (InvalidTransaction "Signing key mismatch"),
        {| entries := entries song_state; accepts := fun _ => true |})
  /\ apply (make_transaction "K1" WORK (song "K2" [] []))
       {| entries := entries song_state; accepts := fun _ => false |}
     = (Raise (InternalError "State error"),
        {| entries := entries song_state; accepts := fun _ => false |}).
Proof.
  split; [|split].
  - refine (eq_trans
              (next_transaction_checked_against_committed_record
                 (make_transaction "K1" WORK (song "K1" [] []))
                 (make_transaction "K1" WORK (song "K2" [] []))
                 empty_state song_state WORK (song "K1" [] []) (song "K2" [] [])
                 "K1" "K1" song_address (fun _ => true) _ _ _ _ _ _) _);
      vm_compute; reflexivity.
  - refine (eq_trans
              (next_transaction_checked_against_committed_record
                 (make_transaction "K1" WORK (song "K1" [] []))
                 (make_transaction "K2" WORK (song "K2" [] []))
                 empty_state song_state WORK (song "K1" [] []) (song "K2" [] [])
                 "K1" "K2" song_address (fun _ => true) _ _ _ _ _ _) _);
      vm_compute; reflexivity.
  - refine (eq_trans
              (next_transaction_checked_against_committed_record
                 (make_transaction "K1" WORK (song "K1" [] []))
                 (make_transaction "K1" WORK (song "K2" [] []))
                 empty_state song_state WORK (song "K1" [] []) (song "K2" [] [])
                 "K1" "K1" song_address (fun _ => false) _ _ _ _ _ _) _);
      vm_compute; reflexivity.
Defined.

Lemma replay_is_idempotent_witness :
  apply (make_transaction "K1" WORK (song "K1" [] []))
    {| entries := entries song_state; accepts := fun _ => true |}
  = (Ok tt, {| entries := entries song_state; accepts := fun _ => true |}).
Proof.
  apply (replay_is_idempotent (make_transaction "K1" WORK (song "K1" [] []))
           empty_state song_state WORK (song "K1" [] []) "K1" song_address
           (fun _ => true));
    vm_compute; reflexivity.
Defined.

(** Both sides of the ownership decision: the committed pubkey K1 updates
    the work, K2 does not. *)
Lemma work_update_requires_committed_pubkey_witness :
  (exists address,
     make_omi_address (OWork (Work.Build "Song" "K1" ["bob"] [] [])) WORK = Ok address
     /\ apply (make_transaction "K1" WORK (song "K1" ["bob"] []))
          {| entries := entries song_state; accepts := fun _ => true |}
        = (Ok tt,
           {| entries := <[address := SerializeToString
                                         (Work.Build "Song" "K1" ["bob"] [] [])]>
                           (entries empty_state);
              accepts := fun _ => true |}))
  /\ (exists address,
        make_omi_address (OWork (Work.Build "Song" "K2" [] [] [])) WORK = Ok address
        /\ apply (make_transaction "K2" WORK (song "K2" [] []))
             {| entries := entries song_state; accepts := fun _ => true |}
           = (Raise (InvalidTransaction "Signing key mismatch"),
              {| entries := entries song_state; accepts := fun _ => true |})).
Proof.
  assert (Hu1 : _unpack_transaction (make_transaction "K1" WORK (song "K1" [] []))
                = Ok (WORK, OWork (Work.Build "Song" "K1" [] [] []), "K1"))
    by (vm_compute; reflexivity).
  assert (Happ1 : apply (make_transaction "K1" WORK (song "K1" [] [])) empty_state
                  = (Ok tt, song_state))
    by (vm_compute; reflexivity).
  assert (Hrt : ParseFromString (SerializeToString (Work.Build "Song" "K1" [] [] []))
                = Some (Work.Build "Song" "K1" [] [] []))
    by (vm_compute; reflexivity).
  assert (Hown : _unpack_transaction (make_transaction "K1" WORK (song "K1" ["bob"] []))
                 = Ok (WORK, OWork (Work.Build "Song" "K1" ["bob"] [] []), "K1"))
    by (vm_compute; reflexivity).
  assert (Hother : _unpack_transaction (make_transaction "K2" WORK (song "K2" [] []))
                   = Ok (WORK, OWork (Work.Build "Song" "K2" [] [] []), "K2"))
    by (vm_compute; reflexivity).
  split.
  - destruct (work_update_requires_committed_pubkey _ _ _ _ _ _ _ _ (fun _ => true)
                Hu1 Happ1 Hrt Hown eq_refl) as (address & Ha & Happ).
    exists address. split; [exact Ha|]. exact Happ.
  - destruct (work_update_requires_committed_pubkey _ _ _ _ _ _ _ _ (fun _ => true)
                Hu1 Happ1 Hrt Hother eq_refl) as (address & Ha & Happ).
    exists address. split; [exact Ha|]. exact Happ.
Defined.

Lemma apply_failure_kinds_witness :
  InvalidTransaction "Signing key mismatch" = DecodeError
  \/ (exists action, InvalidTransaction "Signing key mismatch" = KeyError action)
  \/ InvalidTransaction "Signing key mismatch" = InvalidTransaction "Invalid action"
  \/ InvalidTransaction "Signing key mismatch" = InvalidTransaction "Signing key mismatch"
  \/ InvalidTransaction "Signing key mismatch" = InternalError "State error".
Proof.
  apply (apply_failure_kinds (make_transaction "K2" WORK (song "K2" [] []))
           song_state song_state).
  vm_compute; reflexivity.
Defined.

Lemma apply_unknown_action_witness :
  apply (make_transaction "K1" "DeleteWork" alice) empty_state
  = (Raise (KeyError "DeleteWork"), empty_state).
Proof.
  apply (apply_unknown_action (make_transaction "K1" "DeleteWork" alice) empty_state
           (TransactionHeader.Build "K1") (OMITransactionPayload.Build "DeleteWork")).
  - vm_compute; reflexivity.
  - vm_compute; reflexivity.
  - simpl. intros [H|[H|[H|[H|[]]]]]; discriminate H.
Defined.

Lemma apply_envelope_decode_failure_witness :
  apply {| header := "((";
           payload := payload (make_transaction "K1" WORK (song "K1" [] []));
           data := data (make_transaction "K1" WORK (song "K1" [] [])) |} song_state
  = (Raise DecodeError, song_state)
  /\ apply {| header := header (make_transaction "K1" WORK (song "K1" [] []));
              payload := "((";
              data := data (make_transaction "K1" WORK (song "K1" [] [])) |} song_state
     = (Raise DecodeError, song_state).
Proof.
  split.
  - apply (proj1 (apply_envelope_decode_failure _ song_state)).
    vm_compute; reflexivity.
  - apply (proj2 (apply_envelope_decode_failure _ song_state)).
    vm_compute; reflexivity.
Defined.

Lemma unpacked_object_class_witness :
  (INDIVIDUAL = WORK /\ exists w, alice = OWork w)
  \/ (INDIVIDUAL = RECORDING /\ exists r, alice = ORecording r)
  \/ (INDIVIDUAL = INDIVIDUAL /\ exists i, alice = OIndividual i)
  \/ (INDIVIDUAL = ORGANIZATION /\ exists o, alice = OOrganization o).
Proof.
  apply (unpacked_object_class (make_transaction "K2" INDIVIDUAL alice)
           INDIVIDUAL alice "K2").
  vm_compute; reflexivity.
Defined.
